(** * Path-diagram construction of the SEM analysis app (src/app.py)

    A shallow embedding of [create_path_diagram]: the parsing of the
    model-description text into node names, the grid layout stored in the
    [pos] dictionary, and the edge coordinate lists handed to plotly.

    Python values are modelled as follows.
    - [str]: a list of Unicode code points ([N]); literals are written
      [py "..."].
    - [int]: [Z] (Python integers are unbounded).
    - [dict]: stdpp's [gmap]; a failed subscript raises [KeyError].
    - [list(set(xs))]: the iteration order of a CPython set of strings depends
      on the interpreter's string-hash seed, so it is a parameter of the
      development ([SetOrder]); only what the language guarantees is assumed.
    - exceptions: the [result] monad. *)

From Stdlib Require Import ZArith NArith String Ascii.
From stdpp Require Import gmap list strings.

Open Scope Z_scope.

(** ** Python strings *)

Abbreviation char := N (only parsing).
Abbreviation str := (list N) (only parsing).

(** Code points of an ASCII/Latin-1 literal. *)
Definition py (s : string) : str :=
  List.map N_of_ascii (list_ascii_of_string s).

Definition tilde : char := 126%N.
Definition newline : char := 10%N.

(** [str.isspace] on one code point: the characters [str.strip()] removes
    (Unicode bidirectional class WS, B or S, or category Zs). *)
Definition isspace (c : char) : bool :=
  ((9 <=? c) && (c <=? 13) || (28 <=? c) && (c <=? 32)
   || (c =? 133) || (c =? 160) || (c =? 5760)
   || (8192 <=? c) && (c <=? 8202)
   || (c =? 8232) || (c =? 8233) || (c =? 8239) || (c =? 8287)
   || (c =? 12288))%N.

(** [s.lstrip()] *)
Fixpoint lstrip (s : str) : str :=
  match s with
  | [] => []
  | c :: s' => if isspace c then lstrip s' else s
  end.

(** [s.rstrip()] *)
Definition rstrip (s : str) : str := reverse (lstrip (reverse s)).

(** [s.strip()] *)
Definition strip (s : str) : str := rstrip (lstrip s).

(** [sep in s] for a one-character [sep]. *)
Definition contains (sep : char) (s : str) : bool :=
  existsb (λ c, (c =? sep)%N) s.

(** [s.split(sep)] for a one-character [sep]: cut at every occurrence. *)
Fixpoint split (sep : char) (s : str) : list str :=
  match s with
  | [] => [[]]
  | c :: s' =>
      if (c =? sep)%N then [] :: split sep s'
      else match split sep s' with
           | [] => [[c]]
           | p :: ps => (c :: p) :: ps
           end
  end.

(** [s.count(sep)] for a one-character [sep]; used to state properties. *)
Fixpoint count (sep : char) (s : str) : nat :=
  match s with
  | [] => 0%nat
  | c :: s' => ((if (c =? sep)%N then 1 else 0) + count sep s')%nat
  end.

(** ** Exceptions *)

Inductive exn := ValueError | KeyError | IndexError.

Inductive result (A : Type) :=
| Ok (a : A)
| Raise (e : exn).
Arguments Ok {A} a.
Arguments Raise {A} e.

#[global] Instance result_bind : MBind result := λ A B k r,
  match r with
  | Ok a => k a
  | Raise e => Raise e
  end.

(** [l[i]] for a non-negative index. *)
Definition getitem {A} (l : list A) (i : nat) : result A :=
  match l !! i with
  | Some a => Ok a
  | None => Raise IndexError
  end.

(** [d[k]] on a dictionary. *)
Definition subscript {V} (d : gmap str V) (k : str) : result V :=
  match d !! k with
  | Some v => Ok v
  | None => Raise KeyError
  end.

(** [a, b = parts] *)
Definition unpack2 (parts : list str) : result (str * str) :=
  match parts with
  | [a; b] => Ok (a, b)
  | _ => Raise ValueError
  end.

(** ** Iteration order of a set *)

(** [list_set xs] is [list(set(xs))].  Python promises that the result has
    no repeated element and the same members as [xs]; the order is left to
    the implementation. *)
Class SetOrder := {
  list_set : list str → list str;
  list_set_NoDup xs : NoDup (list_set xs);
  list_set_elem xs n : n ∈ list_set xs ↔ n ∈ xs
}.

(** Two admissible orders: the names in the order of their last occurrence,
    and the reverse of it. *)
Program Definition first_seen : SetOrder :=
  {| list_set := remove_dups |}.
Next Obligation. apply NoDup_remove_dups. Qed.
Next Obligation. intros. apply elem_of_remove_dups. Qed.


(** ** The figure handed to plotly *)

(** [go.Scatter(x=..., y=..., text=..., mode=...)]; [None] in a coordinate
    list breaks the line.  Constant styling arguments are left out. *)
Record Scatter := {
  scatter_x : list (option Z);
  scatter_y : list (option Z);
  scatter_text : option (list str);
  scatter_mode : string
}.

(** [go.Figure()] with its traces in the order they were added. *)
Record Figure := { fig_data : list Scatter }.

(** ** create_path_diagram *)

(** [[path.split('~')[0].strip(), path.split('~')[1].strip()]] *)
Definition path_terms (path : str) : result (list str) :=
  a ← getitem (split tilde path) 0;
  b ← getitem (split tilde path) 1;
  Ok [strip a; strip b].

(** [[item for sublist in [path_terms(path) for path in paths if '~' in path]
      for item in sublist]] *)
Fixpoint node_terms (paths : list str) : result (list str) :=
  match paths with
  | [] => Ok []
  | path :: rest =>
      if contains tilde path then
        sublist ← path_terms path;
        items ← node_terms rest;
        Ok (sublist ++ items)
      else node_terms rest
  end.

(** [for i, node in enumerate(nodes): pos[node] = (i * 2, i % 2 * 2)],
    started at index [i] with the dictionary [pos]. *)
Fixpoint layout (i : Z) (nodes : list str) (pos : gmap str (Z * Z))
  : gmap str (Z * Z) :=
  match nodes with
  | [] => pos
  | node :: rest => layout (i + 1) rest (<[node := (i * 2, i mod 2 * 2)]> pos)
  end.

(** One iteration of the edge loop. *)
Definition edge_step (pos : gmap str (Z * Z))
    (acc : list (option Z) * list (option Z)) (path : str)
  : result (list (option Z) * list (option Z)) :=
  let '(edge_x, edge_y) := acc in
  if contains tilde path then
    '(start, end_) ← unpack2 (split tilde path);
    let start := strip start in
    let end_ := strip end_ in
    sx ← subscript pos start;
    ex ← subscript pos end_;
    let edge_x := edge_x ++ [Some sx.1; Some ex.1; None] in
    sy ← subscript pos start;
    ey ← subscript pos end_;
    let edge_y := edge_y ++ [Some sy.2; Some ey.2; None] in
    Ok (edge_x, edge_y)
  else Ok (edge_x, edge_y).

(** [for path in paths: ...] *)
Fixpoint edge_loop (pos : gmap str (Z * Z))
    (acc : list (option Z) * list (option Z)) (paths : list str)
  : result (list (option Z) * list (option Z)) :=
  match paths with
  | [] => Ok acc
  | path :: rest =>
      acc' ← edge_step pos acc path;
      edge_loop pos acc' rest
  end.

(** [[f(pos[node]) for node in nodes]] *)
Fixpoint coords (f : Z * Z → Z) (pos : gmap str (Z * Z)) (nodes : list str)
  : result (list (option Z)) :=
  match nodes with
  | [] => Ok []
  | node :: rest =>
      p ← subscript pos node;
      ps ← coords f pos rest;
      Ok (Some (f p) :: ps)
  end.

(** Everything the function computes before it builds the figure. *)
Record Diagram := {
  nodes : list str;
  pos : gmap str (Z * Z);
  edge_x : list (option Z);
  edge_y : list (option Z)
}.

Section Builder.
Context {O : SetOrder}.

(** The body of [create_path_diagram] up to the comment "Create figure".
    [model_desc] is the module-level variable the body reads. *)
Definition build_diagram (model_desc : str) : result Diagram :=
  items ← node_terms (split newline model_desc);
  let nodes := list_set items in
  let pos := layout 0 nodes ∅ in
  '(edge_x, edge_y) ← edge_loop pos ([], []) (split newline model_desc);
  Ok {| nodes := nodes; pos := pos; edge_x := edge_x; edge_y := edge_y |}.

(** The two [fig.add_trace] calls. *)
Definition make_figure (d : Diagram) : result Figure :=
  let edges := {| scatter_x := d.(edge_x); scatter_y := d.(edge_y);
                  scatter_text := None; scatter_mode := "lines" |} in
  node_x ← coords fst d.(pos) d.(nodes);
  node_y ← coords snd d.(pos) d.(nodes);
  let markers := {| scatter_x := node_x; scatter_y := node_y;
                    scatter_text := Some d.(nodes);
                    scatter_mode := "markers+text" |} in
  Ok {| fig_data := [edges; markers] |}.

(** [create_path_diagram(model)], run with the global [model_desc]. *)
Definition create_path_diagram {Model : Type} (model_desc : str)
    (model : Model) : result Figure :=
  d ← build_diagram model_desc;
  make_figure d.
End Builder.

(** The default specification text of the app. *)
Definition LF : string := String (ascii_of_nat 10) EmptyString.

Definition default_model_desc : str :=
  py (LF
   ++ "    EiB =~ DIDS_6 + DIDS_7 + DIDS_8 + DIDS_9 + DIDS_10" ++ LF
   ++ "    RE  =~ DIDS_11 + DIDS_12 + DIDS_13 + DIDS_14 + DIDS_15" ++ LF
   ++ "    IwC =~ DIDS_16 + DIDS_17 + DIDS_18 + DIDS_19 + DIDS_20" ++ LF
   ++ "    EiD =~ DIDS_21 + DIDS_22 + DIDS_23 + DIDS_24 + DIDS_25" ++ LF
   ++ "    CM  =~ DIDS_1 + DIDS_2 + DIDS_3 + DIDS_4 + DIDS_5" ++ LF
   ++ "    Eud =~ HEMA_2 + HEMA_3 + HEMA_5 + HEMA_8 + HEMA_10" ++ LF
   ++ "    # Structural Model" ++ LF
   ++ "    Eud ~ EiB + RE + IwC + EiD + CM" ++ LF)%string.

(** ** Views used in the statements *)

(** The lines the two loops act on: those with ['~' in path]. *)
Definition relation_lines (model_desc : str) : list str :=
  filter (λ path, contains tilde path) (split newline model_desc).

(** The stripped first and second part of a line cut at ['~']. *)
Definition sides (path : str) : str * str :=
  (strip (default [] (split tilde path !! 0%nat)),
   strip (default [] (split tilde path !! 1%nat))).

(** The (start, end) name pairs of the edge loop, in line order. *)
Definition edge_names (model_desc : str) : list (str * str) :=
  sides <$> relation_lines model_desc.

(** The three entries one edge appends to a coordinate list. *)
Definition segment (f : Z * Z → Z) (pos : gmap str (Z * Z)) (e : str * str)
  : list (option Z) :=
  [f <$> pos !! e.1; f <$> pos !! e.2; None].

(** The names before deduplication, in line order. *)
Definition term_list (paths : list str) : list str :=
  flat_map (λ path, [(sides path).1; (sides path).2])
           (filter (λ path, contains tilde path) paths).

(** Every name the edge loop looks up is a key of [pos]. *)
Definition keys_present (pos : gmap (list N) (Z * Z)) (paths : list (list N)) : Prop :=
  ∀ path, path ∈ paths → contains tilde path = true →
          is_Some (pos !! (sides path).1) ∧ is_Some (pos !! (sides path).2).

(** No line holds more than one ['~']. *)
Definition well_formed (model_desc : list N) : Prop :=
  Forall (λ path, (count tilde path ≤ 1)%nat) (split newline model_desc).

(** The local variables at the comment "Create figure", as functions of
    the text. *)
Definition diagram_of {O : SetOrder} (model_desc : list N) : Diagram :=
  let nodes := list_set (term_list (split newline model_desc)) in
  let pos := layout 0 nodes ∅ in
  {| nodes := nodes; pos := pos;
     edge_x := flat_map (segment fst pos) (edge_names model_desc);
     edge_y := flat_map (segment snd pos) (edge_names model_desc) |}.

Definition figure_of (d : Diagram) : Figure :=
  {| fig_data :=
       [ {| scatter_x := d.(edge_x); scatter_y := d.(edge_y);
            scatter_text := None; scatter_mode := "lines" |};
         {| scatter_x := (λ n, fst <$> d.(pos) !! n) <$> d.(nodes);
            scatter_y := (λ n, snd <$> d.(pos) !! n) <$> d.(nodes);
            scatter_text := Some d.(nodes);
            scatter_mode := "markers+text" |} ] |}.

(** The fourteen names the default text yields, in line order. *)
Definition default_names : list (list N) :=
  [ py "EiB ="; py "DIDS_6 + DIDS_7 + DIDS_8 + DIDS_9 + DIDS_10";
    py "RE  ="; py "DIDS_11 + DIDS_12 + DIDS_13 + DIDS_14 + DIDS_15";
    py "IwC ="; py "DIDS_16 + DIDS_17 + DIDS_18 + DIDS_19 + DIDS_20";
    py "EiD ="; py "DIDS_21 + DIDS_22 + DIDS_23 + DIDS_24 + DIDS_25";
    py "CM  ="; py "DIDS_1 + DIDS_2 + DIDS_3 + DIDS_4 + DIDS_5";
    py "Eud ="; py "HEMA_2 + HEMA_3 + HEMA_5 + HEMA_8 + HEMA_10";
    py "Eud"; py "EiB + RE + IwC + EiD + CM" ].


Definition shared_name : list N :=
  py "B ~ A" ++ newline :: py "C ~ A".

Definition comments_only : list N :=
  py "# Structural Model" ++ newline :: newline :: py "    no marker here".

Definition three_lines : list N :=
  py "A ~ B" ++ newline :: py "# note" ++ newline :: py "C ~ A".



(** In the diagram [d], the [k]-th segment of the edge lists runs from the
    position of the node named [s] to the position of the node named [e]. *)
Definition joins (d : Diagram) (k : nat) (s e : list N) : Prop :=
  ∃ i j : nat,
    d.(nodes) !! i = Some s ∧ d.(nodes) !! j = Some e ∧
    d.(edge_x) !! (3 * k)%nat = Some (Some (2 * Z.of_nat i)) ∧
    d.(edge_y) !! (3 * k)%nat = Some (Some (2 * (Z.of_nat i mod 2))) ∧
    d.(edge_x) !! (3 * k + 1)%nat = Some (Some (2 * Z.of_nat j)) ∧
    d.(edge_y) !! (3 * k + 1)%nat = Some (Some (2 * (Z.of_nat j mod 2))).

(** * Properties *)

(** ** Strings *)

Lemma contains_count sep s : contains sep s = true ↔ (0 < count sep s)%nat.
Proof.
  induction s as [|c s IH]; simpl; [split; [done | lia]|].
  destruct (c =? sep)%N; simpl; [split; [lia | done]|]. exact IH.
Qed.

Lemma contains_false_count sep s : contains sep s = false ↔ count sep s = 0%nat.
Proof.
  induction s as [|c s IH]; simpl; [done|].
  destruct (c =? sep)%N; simpl; [split; [done | lia]|]. exact IH.
Qed.

Lemma split_length sep s : length (split sep s) = S (count sep s).
Proof.
  induction s as [|c s IH]; simpl; [done|].
  destruct (c =? sep)%N; simpl; [by rewrite IH|].
  destruct (split sep s); simpl in *; lia.
Qed.

Lemma split_no_sep sep s : count sep s = 0%nat → split sep s = [s].
Proof.
  induction s as [|c s IH]; simpl; [done|].
  destruct (c =? sep)%N; simpl; [lia|]. intros H. by rewrite IH.
Qed.

Lemma split_app_sep sep a b :
  count sep a = 0%nat → split sep (a ++ sep :: b) = a :: split sep b.
Proof.
  induction a as [|c a IH]; simpl.
  - by rewrite N.eqb_refl.
  - destruct (c =? sep)%N; simpl; [lia|]. intros H. by rewrite IH.
Qed.

Lemma count_app sep a b : count sep (a ++ b) = (count sep a + count sep b)%nat.
Proof. induction a as [|c a IH]; simpl; [done|]. rewrite IH. lia. Qed.

(** A line with exactly one ['~'] is cut into exactly two parts. *)
Lemma split_one path :
  count tilde path = 1%nat → ∃ a b, split tilde path = [a; b].
Proof.
  intros H. pose proof (split_length tilde path) as L. rewrite H in L.
  destruct (split tilde path) as [|a [|b [|c l]]]; simpl in L; try lia. eauto.
Qed.

Lemma split_two path :
  contains tilde path = true → ∃ a b l, split tilde path = a :: b :: l.
Proof.
  intros H%contains_count. pose proof (split_length tilde path) as L.
  destruct (split tilde path) as [|a [|b l]]; simpl in L; try lia. eauto.
Qed.

(** ** The node phase never raises *)

Lemma path_terms_sides path :
  contains tilde path = true →
  path_terms path = Ok [(sides path).1; (sides path).2].
Proof.
  intros (a & b & l & E)%split_two. unfold path_terms, sides. by rewrite E.
Qed.

Lemma filter_contains_cons (path : list N) (rest : list (list N)) :
  filter (λ p : list N, contains tilde p) (path :: rest) =
  if contains tilde path
  then path :: filter (λ p : list N, contains tilde p) rest
  else filter (λ p : list N, contains tilde p) rest.
Proof. rewrite filter_cons. destruct (contains tilde path); by case_decide. Qed.

Lemma term_list_cons path rest :
  term_list (path :: rest) =
  if contains tilde path
  then (sides path).1 :: (sides path).2 :: term_list rest
  else term_list rest.
Proof.
  unfold term_list. rewrite filter_cons.
  destruct (contains tilde path); by case_decide.
Qed.

Lemma node_terms_spec paths : node_terms paths = Ok (term_list paths).
Proof.
  induction paths as [|path rest IH]; [done|].
  rewrite term_list_cons. cbn [node_terms].
  destruct (contains tilde path) eqn:E; [|done].
  rewrite path_terms_sides by done. by rewrite IH.
Qed.

Lemma sides_in_term_list paths path :
  path ∈ paths → contains tilde path = true →
  (sides path).1 ∈ term_list paths ∧ (sides path).2 ∈ term_list paths.
Proof.
  intros Hin Hc. unfold term_list.
  assert (path ∈ filter (λ p, contains tilde p) paths) as Hf.
  { apply list_elem_of_filter. split; [by rewrite Hc | done]. }
  split; apply list_elem_of_In, in_flat_map; exists path;
    (split; [by apply list_elem_of_In | simpl; auto]).
Qed.

(** ** The layout dictionary *)

Lemma layout_notin (i : Z) (nodes : list (list N)) (m : gmap (list N) (Z * Z)) (n : list N) :
  n ∉ nodes → layout i nodes m !! n = m !! n.
Proof.
  revert i m. induction nodes as [|node rest IH]; intros i m Hn; [done|].
  apply not_elem_of_cons in Hn as [Hne Hn]. cbn [layout].
  rewrite IH by done. by rewrite lookup_insert_ne.
Qed.

Lemma layout_lookup (i : Z) (nodes : list (list N)) (m : gmap (list N) (Z * Z)) (k : nat) (n : list N) :
  NoDup nodes → nodes !! k = Some n →
  layout i nodes m !! n =
  Some ((i + Z.of_nat k) * 2, (i + Z.of_nat k) mod 2 * 2).
Proof.
  revert i m k. induction nodes as [|node rest IH]; intros i m k Hnd Hk; [done|].
  apply NoDup_cons in Hnd as [Hfresh Hnd]. cbn [layout].
  destruct k as [|k]; simpl in Hk.
  - injection Hk as ->. rewrite layout_notin by done.
    rewrite lookup_insert_eq. by replace (i + Z.of_nat 0) with i by lia.
  - rewrite (IH _ _ k) by done. by replace (i + 1 + Z.of_nat k) with (i + Z.of_nat (S k)) by lia.
Qed.

Lemma layout_is_Some (i : Z) (nodes : list (list N)) (m : gmap (list N) (Z * Z)) (n : list N) :
  n ∈ nodes → is_Some (layout i nodes m !! n).
Proof.
  revert i m. induction nodes as [|node rest IH]; intros i m Hn.
  - by apply elem_of_nil in Hn.
  - cbn [layout]. destruct (decide (n ∈ rest)) as [Hin|Hout]; [by apply IH|].
    apply elem_of_cons in Hn as [->|Hin]; [|done].
    rewrite layout_notin by done. rewrite lookup_insert_eq. eauto.
Qed.

Lemma layout_Some_elem (i : Z) (nodes : list (list N)) (m : gmap (list N) (Z * Z)) (n : list N) :
  is_Some (layout i nodes m !! n) → n ∈ nodes ∨ is_Some (m !! n).
Proof.
  destruct (decide (n ∈ nodes)) as [Hin|Hout]; [by left|].
  rewrite layout_notin by done. by right.
Qed.

(** ** The edge loop *)

Lemma edge_step_skip (pos : gmap (list N) (Z * Z)) (acc : list (option Z) * list (option Z)) (path : list N) :
  contains tilde path = false → edge_step pos acc path = Ok acc.
Proof. intros E. unfold edge_step. destruct acc. by rewrite E. Qed.

Lemma edge_step_one (pos : gmap (list N) (Z * Z)) (acc : list (option Z) * list (option Z)) (path : list N) :
  count tilde path = 1%nat →
  is_Some (pos !! (sides path).1) → is_Some (pos !! (sides path).2) →
  edge_step pos acc path =
  Ok (acc.1 ++ segment fst pos (sides path),
      acc.2 ++ segment snd pos (sides path)).
Proof.
  intros Hc [p Hp] [q Hq]. unfold edge_step, segment. destruct acc as [ex ey].
  assert (contains tilde path = true) as -> by (apply contains_count; lia).
  destruct (split_one path Hc) as (a & b & E).
  unfold sides in *. rewrite E in *. simpl in Hp, Hq. simpl.
  unfold subscript. rewrite Hp, Hq. done.
Qed.

Lemma edge_step_many (pos : gmap (list N) (Z * Z)) (acc : list (option Z) * list (option Z)) (path : list N) :
  (2 ≤ count tilde path)%nat → edge_step pos acc path = Raise ValueError.
Proof.
  intros Hc. unfold edge_step. destruct acc as [ex ey].
  assert (contains tilde path = true) as -> by (apply contains_count; lia).
  pose proof (split_length tilde path) as L.
  destruct (split tilde path) as [|a [|b [|c l]]]; simpl in L; try lia; done.
Qed.

Lemma keys_present_cons (pos : gmap (list N) (Z * Z)) (path : list N) (rest : list (list N)) :
  keys_present pos (path :: rest) → keys_present pos rest.
Proof. intros H p Hp. apply H. by right. Qed.

Lemma edge_loop_ok (pos : gmap (list N) (Z * Z)) (paths : list (list N)) (acc : list (option Z) * list (option Z)) :
  keys_present pos paths →
  Forall (λ path, (count tilde path ≤ 1)%nat) paths →
  edge_loop pos acc paths =
  Ok (acc.1 ++ flat_map (segment fst pos)
                  (sides <$> filter (λ path, contains tilde path) paths),
      acc.2 ++ flat_map (segment snd pos)
                  (sides <$> filter (λ path, contains tilde path) paths)).
Proof.
  revert acc. induction paths as [|path rest IH]; intros acc Hk Hc.
  - simpl. rewrite !app_nil_r. by destruct acc.
  - apply Forall_cons in Hc as [Hc1 Hc]. cbn [edge_loop].
    rewrite filter_contains_cons. destruct (contains tilde path) eqn:E.
    + destruct (Hk path) as [Hs He]; [by left | done |].
      apply contains_count in E.
      rewrite edge_step_one by (done || lia). cbn [mbind result_bind].
      rewrite IH by eauto using keys_present_cons.
      rewrite fmap_cons. cbn [flat_map fst snd]. by rewrite !app_assoc.
    + rewrite edge_step_skip by done. cbn [mbind result_bind].
      by apply IH; eauto using keys_present_cons.
Qed.

Lemma edge_loop_fail (pos : gmap (list N) (Z * Z)) (paths : list (list N)) (acc : list (option Z) * list (option Z)) :
  keys_present pos paths →
  Exists (λ path, (2 ≤ count tilde path)%nat) paths →
  edge_loop pos acc paths = Raise ValueError.
Proof.
  revert acc. induction paths as [|path rest IH]; intros acc Hk Hc.
  - by apply Exists_nil in Hc.
  - cbn [edge_loop].
    destruct (le_lt_dec 2 (count tilde path)) as [Hmany|Hfew].
    { by rewrite edge_step_many. }
    apply Exists_cons in Hc as [Hc|Hc]; [lia|].
    destruct (contains tilde path) eqn:E.
    + destruct (Hk path) as [Hs He]; [by left | done |].
      apply contains_count in E.
      rewrite edge_step_one by (done || lia). cbn [mbind result_bind].
      apply IH; eauto using keys_present_cons.
    + rewrite edge_step_skip by done. cbn [mbind result_bind].
      apply IH; eauto using keys_present_cons.
Qed.

Lemma coords_ok (f : Z * Z → Z) (pos : gmap (list N) (Z * Z)) (nodes : list (list N)) :
  (∀ n, n ∈ nodes → is_Some (pos !! n)) →
  coords f pos nodes = Ok ((λ n, f <$> pos !! n) <$> nodes).
Proof.
  induction nodes as [|node rest IH]; intros H; [done|].
  cbn [coords]. destruct (H node) as [p Hp]; [by left|].
  unfold subscript. rewrite Hp. cbn [mbind result_bind].
  rewrite IH by (intros; apply H; by right). by rewrite fmap_cons, Hp.
Qed.

(** ** The whole body *)

Lemma term_list_relation_lines (model_desc : list N) :
  term_list (split newline model_desc) =
  flat_map (λ path, [(sides path).1; (sides path).2])
           (relation_lines model_desc).
Proof. done. Qed.

Lemma well_formed_relation_lines (model_desc : list N) :
  well_formed model_desc ↔
  Forall (λ path, (count tilde path ≤ 1)%nat) (relation_lines model_desc).
Proof.
  unfold well_formed, relation_lines. rewrite !Forall_forall. split.
  - intros H path [_ Hin]%list_elem_of_filter. by apply H.
  - intros H path Hin. destruct (contains tilde path) eqn:E.
    + apply H, list_elem_of_filter. by rewrite E.
    + apply contains_false_count in E. lia.
Qed.

Lemma not_well_formed (model_desc : list N) :
  ¬ well_formed model_desc ↔
  Exists (λ path, (2 ≤ count tilde path)%nat) (split newline model_desc).
Proof.
  unfold well_formed. induction (split newline model_desc) as [|path rest IH].
  - split; [intros H; destruct H; constructor | by intros ?%Exists_nil].
  - rewrite Forall_cons, Exists_cons, <- IH.
    destruct (le_lt_dec 2 (count tilde path)); [split; [auto | lia]|].
    split; [|intros [?|?]; [lia | tauto]].
    intros H. right. intros H'. apply H. split; [lia | done].
Qed.

Section Builder_facts.
Context {O : SetOrder}.

Lemma keys_present_layout (paths : list (list N)) :
  keys_present (layout 0 (list_set (term_list paths)) ∅) paths.
Proof.
  intros path Hin Hc. destruct (sides_in_term_list paths path Hin Hc).
  split; apply layout_is_Some, list_set_elem; done.
Qed.

Lemma build_diagram_ok (model_desc : list N) :
  well_formed model_desc →
  build_diagram model_desc = Ok (diagram_of model_desc).
Proof.
  intros Hwf. unfold build_diagram. rewrite node_terms_spec.
  cbn [mbind result_bind].
  rewrite edge_loop_ok by (apply keys_present_layout || done). done.
Qed.

Lemma build_diagram_fail (model_desc : list N) :
  ¬ well_formed model_desc →
  build_diagram model_desc = Raise ValueError.
Proof.
  intros Hwf%not_well_formed. unfold build_diagram. rewrite node_terms_spec.
  cbn [mbind result_bind].
  rewrite edge_loop_fail by (apply keys_present_layout || done). done.
Qed.

Lemma well_formed_dec (model_desc : list N) :
  {well_formed model_desc} + {¬ well_formed model_desc}.
Proof. unfold well_formed. apply (decide _). Qed.

Lemma build_diagram_inv (model_desc : list N) (d : Diagram) :
  build_diagram model_desc = Ok d →
  well_formed model_desc ∧ d = diagram_of model_desc.
Proof.
  intros H. destruct (well_formed_dec model_desc) as [Hwf|Hwf].
  - rewrite build_diagram_ok in H by done. by injection H as <-.
  - by rewrite build_diagram_fail in H.
Qed.

Lemma make_figure_ok (model_desc : list N) :
  make_figure (diagram_of model_desc) = Ok (figure_of (diagram_of model_desc)).
Proof.
  unfold make_figure.
  rewrite !coords_ok by (intros; by apply layout_is_Some). done.
Qed.

Lemma create_path_diagram_ok {Model} (model_desc : list N) (model : Model) :
  well_formed model_desc →
  create_path_diagram model_desc model =
  Ok (figure_of (diagram_of model_desc)).
Proof.
  intros Hwf. unfold create_path_diagram. rewrite build_diagram_ok by done.
  apply make_figure_ok.
Qed.

Lemma create_path_diagram_fail {Model} (model_desc : list N) (model : Model) :
  ¬ well_formed model_desc →
  create_path_diagram model_desc model = Raise ValueError.
Proof.
  intros Hwf. unfold create_path_diagram. by rewrite build_diagram_fail.
Qed.

Lemma diagram_of_relation_lines (t1 t2 : list N) :
  relation_lines t1 = relation_lines t2 → diagram_of t1 = diagram_of t2.
Proof.
  intros E. unfold diagram_of, edge_names.
  rewrite !term_list_relation_lines. by rewrite E.
Qed.

Lemma list_set_nil : list_set [] = [].
Proof.
  destruct (list_set []) as [|n l] eqn:E; [done|].
  assert (n ∈ list_set []) as Hn by (rewrite E; by left).
  apply (proj1 (list_set_elem _ _)) in Hn. by apply elem_of_nil in Hn.
Qed.

Lemma list_set_Permutation (xs : list (list N)) :
  NoDup xs → list_set xs ≡ₚ xs.
Proof.
  intros H. apply NoDup_Permutation; [apply list_set_NoDup | done |].
  apply list_set_elem.
Qed.
End Builder_facts.

(** ** Trimming *)








Lemma strip_cons_space (c : N) (s : list N) :
  isspace c = true → strip (c :: s) = strip s.
Proof. intros Hc. unfold strip. simpl. by rewrite Hc. Qed.

Lemma strip_snoc_space (c : N) (s : list N) :
  isspace c = true → strip (s ++ [c]) = strip s.
Proof.
  intros Hc. unfold strip. induction s as [|a s IH]; simpl.
  - by rewrite Hc.
  - destruct (isspace a) eqn:Ha; [done|].
    unfold rstrip. change (a :: s ++ [c]) with ((a :: s) ++ [c]).
    rewrite reverse_snoc. cbn [lstrip]. by rewrite Hc.
Qed.


(** ** Lines with one marker *)

Lemma split_relation (A B : list N) :
  count tilde A = 0%nat → count tilde B = 0%nat →
  split tilde (A ++ tilde :: B) = [A; B].
Proof. intros HA HB. by rewrite split_app_sep, (split_no_sep _ B). Qed.

Lemma sides_relation (A B : list N) :
  count tilde A = 0%nat → count tilde B = 0%nat →
  sides (A ++ tilde :: B) = (strip A, strip B).
Proof. intros HA HB. unfold sides. by rewrite split_relation. Qed.

Lemma count_relation (A B : list N) :
  count tilde A = 0%nat → count tilde B = 0%nat →
  count tilde (A ++ tilde :: B) = 1%nat.
Proof. intros HA HB. rewrite count_app. simpl. lia. Qed.

Lemma contains_relation (A B : list N) :
  contains tilde (A ++ tilde :: B) = true.
Proof. apply contains_count. rewrite count_app. simpl. lia. Qed.

Lemma relation_line_elem (model_desc path : list N) :
  path ∈ relation_lines model_desc ↔
  path ∈ split newline model_desc ∧ contains tilde path = true.
Proof.
  unfold relation_lines. rewrite list_elem_of_filter.
  destruct (contains tilde path); simpl; intuition congruence.
Qed.

Lemma filter_eq_notin (l : list (list N)) (n : list N) :
  n ∉ l → filter (λ m, m = n) l = [].
Proof.
  induction l as [|m l IH]; intros Hn; [done|].
  apply not_elem_of_cons in Hn as [Hne Hn].
  rewrite filter_cons. case_decide; [congruence | by apply IH].
Qed.

Lemma NoDup_occurs_once (l : list (list N)) (n : list N) :
  NoDup l → n ∈ l → length (filter (λ m, m = n) l) = 1%nat.
Proof.
  induction 1 as [|m l Hm Hl IH]; intros Hin; [by apply elem_of_nil in Hin|].
  rewrite filter_cons. case_decide as E.
  - subst m. simpl. by rewrite filter_eq_notin.
  - apply IH. apply elem_of_cons in Hin as [->|]; done.
Qed.

(** * The claims *)

#[local] Arguments sides : simpl never.

Ltac by_evaluation := apply (bool_decide_unpack _); vm_compute; exact I.

Lemma terms_X_Y :
  term_list (split newline (py "X =~ Y")) = [py "X ="; py "Y"].
Proof. vm_compute. reflexivity. Qed.

(** C1, as stated, fails on the marker [=~]: the text is cut at ['~'] alone,
    so for ["X =~ Y"] the name ["X"] is not a node under any iteration order
    of the set (the left node is ["X ="]). *)
Lemma C1_eq_marker_counterexample :
  ¬ ∃ (O : SetOrder) (d : Diagram),
      build_diagram (py "X =~ Y") = Ok d ∧ py "X" ∈ d.(nodes).
Proof.
  intros (O & d & H & Hin). apply build_diagram_inv in H as [_ ->].
  cbn [diagram_of nodes] in Hin. apply (proj1 (list_set_elem _ _)) in Hin.
  rewrite terms_X_Y in Hin. apply list_elem_of_In in Hin.
  vm_compute in Hin. destruct Hin as [H|[H|[]]]; discriminate.
Qed.

(** C1 (amended): in a text where no line holds more than one ['~'], every
    line [A ~ B] (no ['~'] inside [A] or [B]) puts the trimmed [A] and the
    trimmed [B] among the nodes and the pair (A, B) among the edges; the
    coordinate lists follow the relation lines in source order, three entries
    per edge, each endpoint found in [pos].  The marker is ['~'] alone: for
    ["X =~ Y"] the nodes are ["X ="] and ["Y"] and the only edge goes from
    ["X ="] to ["Y"]. *)
Theorem C1_relation_line_nodes_and_edge {O : SetOrder} :
  (∀ model_desc path A B : list N,
     well_formed model_desc →
     path ∈ split newline model_desc →
     path = A ++ tilde :: B →
     count tilde A = 0%nat → count tilde B = 0%nat →
     ∃ d, build_diagram model_desc = Ok d ∧
          strip A ∈ d.(nodes) ∧ strip B ∈ d.(nodes) ∧
          (strip A, strip B) ∈ edge_names model_desc ∧
          edge_names model_desc = sides <$> relation_lines model_desc ∧
          d.(edge_x) = flat_map (segment fst d.(pos)) (edge_names model_desc) ∧
          d.(edge_y) = flat_map (segment snd d.(pos)) (edge_names model_desc) ∧
          ∀ e, e ∈ edge_names model_desc →
               is_Some (d.(pos) !! e.1) ∧ is_Some (d.(pos) !! e.2)) ∧
  (∃ d, build_diagram (py "X =~ Y") = Ok d ∧
        d.(nodes) ≡ₚ [py "X ="; py "Y"] ∧
        edge_names (py "X =~ Y") = [(py "X =", py "Y")] ∧
        length d.(edge_x) = 3%nat ∧ length d.(edge_y) = 3%nat).
Proof.
  split.
  - intros model_desc path A B Hwf Hin -> HA HB.
    exists (diagram_of model_desc). split; [by apply build_diagram_ok|].
    pose proof (contains_relation A B) as Hc.
    destruct (sides_in_term_list _ _ Hin Hc) as [H1 H2].
    rewrite sides_relation in H1, H2 by done. cbn [fst snd] in H1, H2.
    cbn [diagram_of nodes pos edge_x edge_y].
    split; [by apply list_set_elem|]. split; [by apply list_set_elem|].
    split.
    { unfold edge_names. rewrite <- (sides_relation A B) by done.
      apply list_elem_of_fmap_2, relation_line_elem. done. }
    repeat split; try done.
    all: apply list_elem_of_fmap in H as (p & -> & [Hp Hcp]%relation_line_elem).
    all: by apply keys_present_layout.
  - exists (diagram_of (py "X =~ Y")).
    split; [apply build_diagram_ok; by_evaluation|].
    cbn [diagram_of nodes edge_x edge_y]. rewrite terms_X_Y.
    split; [apply list_set_Permutation; by_evaluation|].
    assert (edge_names (py "X =~ Y") = [(py "X =", py "Y")]) as ->
        by (vm_compute; reflexivity).
    done.
Qed.

Lemma C1_relation_line_witness :
  well_formed (py "A ~ B") ∧
  ∃ d, @build_diagram first_seen (py "A ~ B") = Ok d ∧
       strip (py "A ") ∈ d.(nodes) ∧ strip (py " B") ∈ d.(nodes) ∧
       (strip (py "A "), strip (py " B")) ∈ edge_names (py "A ~ B").
Proof.
  split; [by_evaluation|].
  destruct (proj1 (@C1_relation_line_nodes_and_edge first_seen)
              (py "A ~ B") (py "A ~ B") (py "A ") (py " B"))
    as (d & H & H1 & H2 & H3 & _).
  - by_evaluation.
  - vm_compute. left.
  - vm_compute. reflexivity.
  - vm_compute. reflexivity.
  - vm_compute. reflexivity.
  - exists d. auto.
Defined.

Lemma terms_default :
  term_list (split newline default_model_desc) = default_names.
Proof. vm_compute. reflexivity. Qed.

(** C2, as stated, fails: the indicator ["DIDS_6"], named on the right of the
    first relation line of the default text, is not a node under any
    iteration order of the set. *)
Lemma C2_default_indicator_counterexample :
  ¬ ∃ (O : SetOrder) (d : Diagram),
      build_diagram default_model_desc = Ok d ∧ py "DIDS_6" ∈ d.(nodes).
Proof.
  intros (O & d & H & Hin). apply build_diagram_inv in H as [_ ->].
  cbn [diagram_of nodes] in Hin. apply (proj1 (list_set_elem _ _)) in Hin.
  rewrite terms_default in Hin. revert Hin.
  by_evaluation.
Qed.

(** C2 (amended): on the default text the function returns a figure; the node
    list is not empty and holds exactly fourteen names: for every relation
    line the whole trimmed text before its ['~'] (with the ["="] of a [=~]
    line) and the whole trimmed text after it. *)
Theorem C2_default_text_nodes {O : SetOrder} :
  ∃ d, build_diagram default_model_desc = Ok d ∧
       create_path_diagram default_model_desc () = Ok (figure_of d) ∧
       d.(nodes) ≠ [] ∧
       d.(nodes) ≡ₚ default_names ∧
       length d.(nodes) = 14%nat ∧
       ∀ path, path ∈ relation_lines default_model_desc →
               (sides path).1 ∈ d.(nodes) ∧ (sides path).2 ∈ d.(nodes).
Proof.
  assert (well_formed default_model_desc) as Hwf by by_evaluation.
  exists (diagram_of default_model_desc).
  split; [by apply build_diagram_ok|].
  split; [by apply create_path_diagram_ok|].
  cbn [diagram_of nodes]. rewrite terms_default.
  assert (list_set default_names ≡ₚ default_names) as HP
      by (apply list_set_Permutation; by_evaluation).
  split; [|split; [done|split]].
  - intros E. rewrite E in HP. by apply Permutation_nil_cons in HP.
  - by rewrite HP.
  - intros path [Hin Hc]%relation_line_elem.
    rewrite <- terms_default.
    split; apply list_set_elem; by apply sides_in_term_list.
Qed.






(** C5: the node list holds no name twice, and a name that is the left or
    right term of one or of several relation lines occurs in it exactly
    once. *)
Theorem C5_nodes_deduplicated {O : SetOrder} (model_desc : list N)
    (d : Diagram) :
  build_diagram model_desc = Ok d →
  NoDup d.(nodes) ∧
  ∀ path name, path ∈ relation_lines model_desc →
               name = (sides path).1 ∨ name = (sides path).2 →
               length (filter (λ n, n = name) d.(nodes)) = 1%nat.
Proof.
  intros [_ ->]%build_diagram_inv. cbn [diagram_of nodes].
  split; [apply list_set_NoDup|].
  intros path name [Hin Hc]%relation_line_elem Hname.
  apply NoDup_occurs_once; [apply list_set_NoDup|]. apply list_set_elem.
  destruct (sides_in_term_list _ _ Hin Hc). by destruct Hname as [->| ->].
Qed.

Lemma C5_shared_name_witness :
  ∃ d, @build_diagram first_seen shared_name = Ok d ∧
       NoDup d.(nodes) ∧
       length (filter (λ n, n = py "A") d.(nodes)) = 1%nat.
Proof.
  exists (@diagram_of first_seen shared_name).
  assert (@build_diagram first_seen shared_name =
          Ok (@diagram_of first_seen shared_name)) as H
      by (vm_compute; reflexivity).
  split; [exact H|].
  destruct (@C5_nodes_deduplicated first_seen _ _ H) as [Hnd Hone].
  split; [exact Hnd|].
  apply (Hone (py "C ~ A")).
  - vm_compute. right. left.
  - right. vm_compute. reflexivity.
Defined.

(** C6: in the layout of a node list without repetition, the node at the
    0-based index [i] gets the position (2i, 2 * (i mod 2)). *)
Theorem C6_position_of_index (nodes : list (list N)) (i : nat) (n : list N) :
  NoDup nodes → nodes !! i = Some n →
  layout 0 nodes ∅ !! n = Some (2 * Z.of_nat i, 2 * (Z.of_nat i mod 2)).
Proof.
  intros Hnd Hi. rewrite (layout_lookup 0 nodes ∅ i n) by done.
  rewrite Z.add_0_l. by rewrite !(Z.mul_comm _ 2).
Qed.

Lemma C6_position_witness :
  NoDup [py "A"; py "B"; py "C"; py "D"] ∧
  layout 0 [py "A"; py "B"; py "C"; py "D"] ∅ !! py "D" = Some (6, 2).
Proof.
  assert (NoDup [py "A"; py "B"; py "C"; py "D"]) as Hnd by by_evaluation.
  split; [exact Hnd|].
  exact (C6_position_of_index [py "A"; py "B"; py "C"; py "D"] 3 (py "D")
           Hnd eq_refl).
Defined.

(** The same for the diagram the function builds. *)
Lemma build_diagram_position {O : SetOrder} (model_desc : list N)
    (d : Diagram) (i : nat) (n : list N) :
  build_diagram model_desc = Ok d → d.(nodes) !! i = Some n →
  d.(pos) !! n = Some (2 * Z.of_nat i, 2 * (Z.of_nat i mod 2)).
Proof.
  intros [_ ->]%build_diagram_inv Hi. cbn [diagram_of nodes pos] in *.
  rewrite (layout_lookup 0 _ ∅ i n) by (done || apply list_set_NoDup).
  rewrite Z.add_0_l. by rewrite !(Z.mul_comm _ 2).
Qed.

Lemma edge_loop_app (pos : gmap (list N) (Z * Z))
    (acc : list (option Z) * list (option Z)) (l1 l2 : list (list N)) :
  edge_loop pos acc (l1 ++ l2) =
  acc' ← edge_loop pos acc l1; edge_loop pos acc' l2.
Proof.
  revert acc. induction l1 as [|path l1 IH]; intros acc; [done|].
  cbn [app edge_loop]. destruct (edge_step pos acc path) as [acc'|e]; [|done].
  cbn [mbind result_bind]. apply IH.
Qed.

Lemma term_list_app (l1 l2 : list (list N)) :
  term_list (l1 ++ l2) = term_list l1 ++ term_list l2.
Proof. unfold term_list. by rewrite filter_app, flat_map_app. Qed.

Lemma build_diagram_relation_lines {O : SetOrder} (t1 t2 : list N) :
  relation_lines t1 = relation_lines t2 → build_diagram t1 = build_diagram t2.
Proof.
  intros E. destruct (well_formed_dec t1) as [H1|H1].
  - assert (well_formed t2) as H2
        by (apply well_formed_relation_lines; rewrite <- E;
            by apply well_formed_relation_lines).
    rewrite !build_diagram_ok by done. f_equal.
    by apply diagram_of_relation_lines.
  - assert (¬ well_formed t2) as H2.
    { intros H2. apply H1, well_formed_relation_lines. rewrite E.
      by apply well_formed_relation_lines. }
    by rewrite !build_diagram_fail.
Qed.

(** C7: a line without ['~'] adds nothing to the names collected by the node
    phase and leaves the edge loop's result as it is; two texts with the same
    relation lines give the same result; and a text without relation lines
    gives an empty node list, an empty [pos] and empty edge lists. *)
Theorem C7_lines_without_marker {O : SetOrder} {Model : Type} (model : Model) :
  (∀ (before after : list (list N)) (path : list N),
     contains tilde path = false →
     node_terms (before ++ path :: after) = node_terms (before ++ after) ∧
     ∀ pos acc, edge_loop pos acc (before ++ path :: after) =
                edge_loop pos acc (before ++ after)) ∧
  (∀ t1 t2 : list N,
     relation_lines t1 = relation_lines t2 →
     create_path_diagram t1 model = create_path_diagram t2 model) ∧
  (∀ model_desc : list N,
     relation_lines model_desc = [] →
     build_diagram model_desc =
       Ok {| nodes := []; pos := ∅; edge_x := []; edge_y := [] |} ∧
     create_path_diagram model_desc model =
       Ok {| fig_data :=
               [ {| scatter_x := []; scatter_y := [];
                    scatter_text := None; scatter_mode := "lines" |};
                 {| scatter_x := []; scatter_y := [];
                    scatter_text := Some [];
                    scatter_mode := "markers+text" |} ] |}).
Proof.
  split; [|split].
  - intros before after path Hc. split.
    + rewrite !node_terms_spec, !term_list_app, term_list_cons. by rewrite Hc.
    + intros pos acc. rewrite !edge_loop_app.
      destruct (edge_loop pos acc before) as [acc'|e]; [|done].
      cbn [mbind result_bind edge_loop]. by rewrite edge_step_skip.
  - intros t1 t2 E. unfold create_path_diagram.
    by rewrite (build_diagram_relation_lines t1 t2).
  - intros model_desc E.
    assert (well_formed model_desc) as Hwf.
    { apply well_formed_relation_lines. rewrite E. constructor. }
    assert (diagram_of model_desc =
            {| nodes := []; pos := ∅; edge_x := []; edge_y := [] |}) as Hd.
    { unfold diagram_of, edge_names.
      rewrite term_list_relation_lines, E. simpl. by rewrite list_set_nil. }
    rewrite create_path_diagram_ok, build_diagram_ok by done.
    by rewrite Hd.
Qed.

Lemma C7_comments_only_witness :
  relation_lines comments_only = [] ∧
  @build_diagram first_seen comments_only =
    Ok {| nodes := []; pos := ∅; edge_x := []; edge_y := [] |}.
Proof.
  assert (relation_lines comments_only = []) as E by (vm_compute; reflexivity).
  split; [exact E|].
  exact (proj1 (proj2 (proj2 (@C7_lines_without_marker first_seen unit ()))
                  comments_only E)).
Defined.




(** C9: when every line with a ['~'] holds exactly one, each relation line is
    cut into two parts whose trimmed texts are both keys of the [pos] built
    from the node list, so both subscripts of the edge loop return a
    position, the loop raises nothing and the function returns its figure. *)
Theorem C9_edge_endpoints_are_keys {O : SetOrder} {Model : Type}
    (model_desc : list N) (model : Model) :
  Forall (λ path, contains tilde path = true → count tilde path = 1%nat)
         (split newline model_desc) →
  ∃ items,
    node_terms (split newline model_desc) = Ok items ∧
    let keys := layout 0 (list_set items) ∅ in
    (∀ path, path ∈ relation_lines model_desc →
       ∃ a b p q, split tilde path = [a; b] ∧
                  subscript keys (strip a) = Ok p ∧
                  subscript keys (strip b) = Ok q) ∧
    (∃ edges, edge_loop keys ([], []) (split newline model_desc) = Ok edges) ∧
    ∃ d, build_diagram model_desc = Ok d ∧ d.(pos) = keys ∧
         create_path_diagram model_desc model = Ok (figure_of d).
Proof.
  intros Hone.
  assert (well_formed model_desc) as Hwf.
  { unfold well_formed. eapply Forall_impl; [exact Hone|]. intros path H.
    simpl in H. destruct (contains tilde path) eqn:E; [by rewrite H|].
    apply contains_false_count in E. lia. }
  exists (term_list (split newline model_desc)).
  split; [apply node_terms_spec|]. intros keys.
  split; [|split].
  - intros path [Hin Hc]%relation_line_elem.
    rewrite Forall_forall in Hone.
    destruct (split_one path (Hone _ Hin Hc)) as (a & b & E).
    destruct (keys_present_layout (split newline model_desc) path Hin Hc)
      as [[p Hp] [q Hq]].
    unfold sides in Hp, Hq. rewrite E in Hp, Hq. simpl in Hp, Hq.
    exists a, b, p, q. unfold subscript, keys. by rewrite Hp, Hq.
  - eexists. apply edge_loop_ok; [apply keys_present_layout | exact Hwf].
  - exists (diagram_of model_desc).
    split; [by apply build_diagram_ok|].
    split; [done | by apply create_path_diagram_ok].
Qed.

Lemma C9_default_text_witness :
  Forall (λ path, contains tilde path = true → count tilde path = 1%nat)
         (split newline default_model_desc) ∧
  ∃ d, @create_path_diagram first_seen unit default_model_desc () =
       Ok (figure_of d).
Proof.
  assert (Forall (λ path, contains tilde path = true →
                          count tilde path = 1%nat)
                 (split newline default_model_desc)) as H by by_evaluation.
  split; [exact H|].
  destruct (@C9_edge_endpoints_are_keys first_seen unit
              default_model_desc () H) as (_ & _ & _ & _ & d & _ & _ & Hd).
  exists d. exact Hd.
Defined.

(** The subscripts never fail, with or without the precondition: the only
    exception the function can raise is the ValueError of the unpacking. *)
Lemma create_path_diagram_never_KeyError {O : SetOrder} {Model : Type}
    (model_desc : list N) (model : Model) :
  create_path_diagram model_desc model ≠ Raise KeyError ∧
  create_path_diagram model_desc model ≠ Raise IndexError.
Proof.
  destruct (well_formed_dec model_desc) as [H|H].
  - by rewrite create_path_diagram_ok.
  - by rewrite create_path_diagram_fail.
Qed.


(** * Further properties of the diagram *)

(** ** The position dictionary *)

Lemma layout_lookup_inv (nodes : list (list N)) (n : list N) (p : Z * Z) :
  NoDup nodes → layout 0 nodes ∅ !! n = Some p →
  ∃ i : nat, nodes !! i = Some n ∧
             p = (2 * Z.of_nat i, 2 * (Z.of_nat i mod 2)).
Proof.
  intros Hnd Hp.
  destruct (layout_Some_elem 0 nodes ∅ n) as [Hin|[? H]]; [by eexists | |done].
  apply list_elem_of_lookup in Hin as [i Hi]. exists i. split; [done|].
  rewrite (layout_lookup 0 nodes ∅ i n) in Hp by done.
  injection Hp as <-. rewrite Z.add_0_l. by rewrite !(Z.mul_comm _ 2).
Qed.

Lemma layout_size (i : Z) (nodes : list (list N)) (m : gmap (list N) (Z * Z)) :
  NoDup nodes → (∀ n, n ∈ nodes → m !! n = None) →
  size (layout i nodes m) = (length nodes + size m)%nat.
Proof.
  revert i m. induction nodes as [|node rest IH]; intros i m Hnd Hm; [done|].
  apply NoDup_cons in Hnd as [Hfresh Hnd]. cbn [layout length].
  rewrite IH; [|done|].
  - rewrite map_size_insert_None by (apply Hm; by left). lia.
  - intros n Hn. rewrite lookup_insert_ne by (by intros ->).
    apply Hm. by right.
Qed.

Lemma term_is_a_part (model_desc n : list N) :
  well_formed model_desc → n ∈ term_list (split newline model_desc) →
  ∃ path a b, path ∈ split newline model_desc ∧
              split tilde path = [a; b] ∧ (n = strip a ∨ n = strip b).
Proof.
  intros Hwf. unfold term_list.
  intros (path & [Hc Hin]%list_elem_of_In%list_elem_of_filter & Hn)
    %list_elem_of_In%in_flat_map.
  apply Is_true_true in Hc.
  unfold well_formed in Hwf. rewrite Forall_forall in Hwf.
  pose proof (Hwf _ Hin) as Hle. pose proof Hc as Hpos.
  apply contains_count in Hpos.
  destruct (split_one path) as (a & b & E); [lia|].
  exists path, a, b. split; [done|]. split; [done|].
  unfold sides in Hn. rewrite E in Hn. simpl in Hn. intuition.
Qed.

(** X2: the keys of [pos] are the nodes, one entry each, and the nodes are the
    trimmed parts of the relation lines and nothing else. *)
Theorem pos_keys_are_the_names {O : SetOrder} (model_desc : list N)
    (d : Diagram) :
  build_diagram model_desc = Ok d →
  (∀ n, is_Some (d.(pos) !! n) ↔ n ∈ d.(nodes)) ∧
  size d.(pos) = length d.(nodes) ∧
  ∀ n, n ∈ d.(nodes) ↔
       ∃ path a b, path ∈ split newline model_desc ∧
                   split tilde path = [a; b] ∧ (n = strip a ∨ n = strip b).
Proof.
  intros [Hwf ->]%build_diagram_inv. cbn [diagram_of nodes pos].
  split; [|split].
  - intros n. split; [|apply layout_is_Some].
    intros H. by destruct (layout_Some_elem _ _ _ _ H) as [?|[? ?]].
  - rewrite layout_size; [by rewrite map_size_empty, Nat.add_0_r
                         | apply list_set_NoDup | done].
  - intros n. rewrite list_set_elem. split.
    + by apply term_is_a_part.
    + intros (path & a & b & Hin & E & Hn).
      assert (contains tilde path = true) as Hc.
      { apply contains_count. pose proof (split_length tilde path) as L.
        rewrite E in L. simpl in L. lia. }
      destruct (sides_in_term_list _ _ Hin Hc) as [H1 H2].
      unfold sides in H1, H2. rewrite E in H1, H2. simpl in H1, H2.
      by destruct Hn as [-> | ->].
Qed.

Lemma pos_keys_witness :
  ∃ d, @build_diagram first_seen three_lines = Ok d ∧
       size d.(pos) = length d.(nodes) ∧
       (is_Some (d.(pos) !! py "C") ↔ py "C" ∈ d.(nodes)).
Proof.
  exists (@diagram_of first_seen three_lines).
  assert (@build_diagram first_seen three_lines =
          Ok (@diagram_of first_seen three_lines)) as H
      by (vm_compute; reflexivity).
  destruct (@pos_keys_are_the_names first_seen _ _ H) as (Hk & Hs & _).
  split; [exact H|]. split; [exact Hs | exact (Hk (py "C"))].
Defined.

(** X3: no two nodes are drawn at the same place. *)
Theorem positions_do_not_overlap {O : SetOrder} (model_desc : list N)
    (d : Diagram) (n1 n2 : list N) (p : Z * Z) :
  build_diagram model_desc = Ok d →
  d.(pos) !! n1 = Some p → d.(pos) !! n2 = Some p → n1 = n2.
Proof.
  intros [_ ->]%build_diagram_inv. cbn [diagram_of pos]. intros H1 H2.
  apply layout_lookup_inv in H1 as (i & Hi & ->); [|apply list_set_NoDup].
  apply layout_lookup_inv in H2 as (j & Hj & E); [|apply list_set_NoDup].
  assert (i = j) as -> by (injection E; lia). congruence.
Qed.

Lemma positions_witness :
  ∃ d, @build_diagram first_seen three_lines = Ok d ∧
       d.(pos) !! py "A" = Some (4, 0) ∧
       ∀ n, d.(pos) !! n = Some (4, 0) → n = py "A".
Proof.
  exists (@diagram_of first_seen three_lines).
  assert (@build_diagram first_seen three_lines =
          Ok (@diagram_of first_seen three_lines)) as H
      by (vm_compute; reflexivity).
  assert ((@diagram_of first_seen three_lines).(pos) !! py "A" = Some (4, 0))
    as HC by (vm_compute; reflexivity).
  split; [exact H|]. split; [exact HC|]. intros n Hn.
  exact (@positions_do_not_overlap first_seen _ _ n (py "A") (4, 0) H Hn HC).
Defined.

(** X4: every position lies on the two-row grid: an even abscissa from 0 to
    2(n-1) for n nodes, and the ordinate 0 or 2, alternating along the row. *)
Theorem positions_on_the_grid {O : SetOrder} (model_desc : list N)
    (d : Diagram) (n : list N) (p : Z * Z) :
  build_diagram model_desc = Ok d → d.(pos) !! n = Some p →
  0 ≤ p.1 ≤ 2 * (Z.of_nat (length d.(nodes)) - 1) ∧
  p.1 mod 2 = 0 ∧
  (p.2 = 0 ∨ p.2 = 2) ∧
  p.2 = p.1 mod 4.
Proof.
  intros [_ ->]%build_diagram_inv. cbn [diagram_of pos nodes]. intros H.
  apply layout_lookup_inv in H as (i & Hi & ->); [|apply list_set_NoDup].
  apply lookup_lt_Some in Hi. cbn [fst snd].
  change 4 with (2 * 2). rewrite Z.mul_mod_distr_l by lia.
  rewrite (Z.mul_comm 2 (Z.of_nat i)), Z.mod_mul by lia.
  pose proof (Z.mod_pos_bound (Z.of_nat i) 2). lia.
Qed.

Lemma positions_on_the_grid_witness :
  ∃ d, @build_diagram first_seen three_lines = Ok d ∧
       d.(pos) !! py "C" = Some (2, 2) ∧
       0 ≤ 2 ≤ 2 * (Z.of_nat (length d.(nodes)) - 1).
Proof.
  exists (@diagram_of first_seen three_lines).
  assert (@build_diagram first_seen three_lines =
          Ok (@diagram_of first_seen three_lines)) as H
      by (vm_compute; reflexivity).
  assert ((@diagram_of first_seen three_lines).(pos) !! py "C" = Some (2, 2))
    as HC by (vm_compute; reflexivity).
  split; [exact H|]. split; [exact HC|].
  exact (proj1 (@positions_on_the_grid first_seen _ _ _ _ H HC)).
Defined.

(** ** The two traces of the figure *)

Lemma flat_map_segment_length (f : Z * Z → Z) (pos : gmap (list N) (Z * Z))
    (es : list (list N * list N)) :
  length (flat_map (segment f pos) es) = (3 * length es)%nat.
Proof.
  induction es as [|e es IH]; [done|].
  cbn [flat_map]. rewrite length_app, IH. simpl. lia.
Qed.

Lemma flat_map_segment_lookup (f : Z * Z → Z) (pos : gmap (list N) (Z * Z))
    (es : list (list N * list N)) (k : nat) (e : list N * list N) :
  es !! k = Some e →
  flat_map (segment f pos) es !! (3 * k)%nat = Some (f <$> pos !! e.1) ∧
  flat_map (segment f pos) es !! (3 * k + 1)%nat = Some (f <$> pos !! e.2) ∧
  flat_map (segment f pos) es !! (3 * k + 2)%nat = Some None.
Proof.
  revert k. induction es as [|e' es IH]; intros k Hk; [done|].
  destruct k as [|k]; simpl in Hk.
  - injection Hk as ->. done.
  - cbn [flat_map].
    replace (3 * S k)%nat with (3 + 3 * k)%nat by lia.
    replace (3 + 3 * k + 1)%nat with (3 + (3 * k + 1))%nat by lia.
    replace (3 + 3 * k + 2)%nat with (3 + (3 * k + 2))%nat by lia.
    change (segment f pos e' ++ flat_map (segment f pos) es)
      with ((f <$> pos !! e'.1) :: (f <$> pos !! e'.2) :: None
              :: flat_map (segment f pos) es).
    cbn [lookup list_lookup Nat.add]. by apply IH.
Qed.

Lemma edge_entries {O : SetOrder} (model_desc : list N) (k : nat)
    (path : list N) :
  well_formed model_desc →
  relation_lines model_desc !! k = Some path →
  let d := diagram_of model_desc in
  ∃ a b s e,
    split tilde path = [a; b] ∧
    d.(pos) !! strip a = Some s ∧ d.(pos) !! strip b = Some e ∧
    d.(edge_x) !! (3 * k)%nat = Some (Some s.1) ∧
    d.(edge_y) !! (3 * k)%nat = Some (Some s.2) ∧
    d.(edge_x) !! (3 * k + 1)%nat = Some (Some e.1) ∧
    d.(edge_y) !! (3 * k + 1)%nat = Some (Some e.2) ∧
    d.(edge_x) !! (3 * k + 2)%nat = Some None ∧
    d.(edge_y) !! (3 * k + 2)%nat = Some None.
Proof.
  intros Hwf Hk d. unfold d. cbn [diagram_of nodes pos edge_x edge_y].
  unfold edge_names.
  assert (path ∈ relation_lines model_desc) as [Hin Hc]%relation_line_elem
      by (eapply list_elem_of_lookup_2; eauto).
  unfold well_formed in Hwf. rewrite Forall_forall in Hwf.
  pose proof (Hwf _ Hin) as Hle. pose proof Hc as Hpos.
  apply contains_count in Hpos.
  destruct (split_one path) as (a & b & E); [lia|].
  destruct (keys_present_layout (split newline model_desc) path Hin Hc)
    as [[s Hs] [e He]].
  assert (sides path = (strip a, strip b)) as Hsides
      by (unfold sides; by rewrite E).
  rewrite Hsides in Hs, He. cbn [fst snd] in Hs, He.
  exists a, b, s, e. split; [done|]. split; [done|]. split; [done|].
  assert ((sides <$> relation_lines model_desc) !! k = Some (strip a, strip b))
    as Hedge by (by rewrite list_lookup_fmap, Hk, <- Hsides).
  set (table := layout 0 (list_set (term_list (split newline model_desc))) ∅)
    in *.
  destruct (flat_map_segment_lookup fst table _ _ _ Hedge) as (X1 & X2 & X3).
  destruct (flat_map_segment_lookup snd table _ _ _ Hedge) as (Y1 & Y2 & Y3).
  cbn [fst snd] in X1, X2, Y1, Y2. rewrite Hs in X1, Y1. rewrite He in X2, Y2.
  done.
Qed.

(** The [k]-th relation line is drawn between the nodes that carry its two
    names. *)
Lemma edge_joins {O : SetOrder} (model_desc : list N) (k : nat)
    (path a b : list N) :
  well_formed model_desc →
  relation_lines model_desc !! k = Some path →
  split tilde path = [a; b] →
  joins (diagram_of model_desc) k (strip a) (strip b).
Proof.
  intros Hwf Hk E.
  destruct (edge_entries model_desc k path Hwf Hk)
    as (a' & b' & s & e & E' & Hs & He & HX).
  rewrite E in E'. injection E' as <- <-.
  cbn [diagram_of nodes pos edge_x edge_y] in *.
  apply layout_lookup_inv in Hs as (i & Hi & ->); [|apply list_set_NoDup].
  apply layout_lookup_inv in He as (j & Hj & ->); [|apply list_set_NoDup].
  exists i, j. cbn [diagram_of nodes pos edge_x edge_y fst snd] in *.
  intuition.
Qed.

(** X6: each relation line adds three entries to both coordinate lists: the
    positions of its two names, then [None]; nothing else is in the lists. *)
Theorem edge_lists_in_threes {O : SetOrder} (model_desc : list N)
    (d : Diagram) :
  build_diagram model_desc = Ok d →
  length d.(edge_x) = (3 * length (relation_lines model_desc))%nat ∧
  length d.(edge_y) = (3 * length (relation_lines model_desc))%nat ∧
  ∀ (k : nat) (path : list N),
    relation_lines model_desc !! k = Some path →
    ∃ a b s e,
      split tilde path = [a; b] ∧
      d.(pos) !! strip a = Some s ∧ d.(pos) !! strip b = Some e ∧
      d.(edge_x) !! (3 * k)%nat = Some (Some s.1) ∧
      d.(edge_y) !! (3 * k)%nat = Some (Some s.2) ∧
      d.(edge_x) !! (3 * k + 1)%nat = Some (Some e.1) ∧
      d.(edge_y) !! (3 * k + 1)%nat = Some (Some e.2) ∧
      d.(edge_x) !! (3 * k + 2)%nat = Some None ∧
      d.(edge_y) !! (3 * k + 2)%nat = Some None.
Proof.
  intros [Hwf ->]%build_diagram_inv.
  split; [|split].
  - cbn [diagram_of edge_x]. unfold edge_names.
    by rewrite flat_map_segment_length, length_fmap.
  - cbn [diagram_of edge_y]. unfold edge_names.
    by rewrite flat_map_segment_length, length_fmap.
  - intros k path Hk. by apply edge_entries.
Qed.

Lemma edge_lists_witness :
  ∃ d, @build_diagram first_seen three_lines = Ok d ∧
       length d.(edge_x) = 6%nat ∧ length d.(edge_y) = 6%nat.
Proof.
  exists (@diagram_of first_seen three_lines).
  assert (@build_diagram first_seen three_lines =
          Ok (@diagram_of first_seen three_lines)) as H
      by (vm_compute; reflexivity).
  destruct (@edge_lists_in_threes first_seen _ _ H) as (Hx & Hy & _).
  split; [exact H|]. split; [exact Hx | exact Hy].
Defined.

(** X7: both ends of every segment lie on markers: the k-th relation line is
    drawn from the position of the node that carries its left name to the
    position of the node that carries its right name. *)
Theorem segments_join_nodes {O : SetOrder} (model_desc : list N)
    (d : Diagram) (k : nat) (path a b : list N) :
  build_diagram model_desc = Ok d →
  relation_lines model_desc !! k = Some path →
  split tilde path = [a; b] →
  ∃ i j : nat,
    d.(nodes) !! i = Some (strip a) ∧ d.(nodes) !! j = Some (strip b) ∧
    d.(edge_x) !! (3 * k)%nat = Some (Some (2 * Z.of_nat i)) ∧
    d.(edge_y) !! (3 * k)%nat = Some (Some (2 * (Z.of_nat i mod 2))) ∧
    d.(edge_x) !! (3 * k + 1)%nat = Some (Some (2 * Z.of_nat j)) ∧
    d.(edge_y) !! (3 * k + 1)%nat = Some (Some (2 * (Z.of_nat j mod 2))).
Proof.
  intros [Hwf ->]%build_diagram_inv Hk E.
  destruct (edge_joins model_desc k path a b Hwf Hk E)
    as (i & j & Hi & Hj & H).
  exists i, j. split; [exact Hi|]. split; [exact Hj | exact H].
Qed.

Lemma segments_witness :
  ∃ d i j, @build_diagram first_seen three_lines = Ok d ∧
           d.(nodes) !! i = Some (strip (py "C ")) ∧
           d.(nodes) !! j = Some (strip (py " A")) ∧
           d.(edge_x) !! 3%nat = Some (Some (2 * Z.of_nat i)) ∧
           d.(edge_x) !! 4%nat = Some (Some (2 * Z.of_nat j)).
Proof.
  assert (@build_diagram first_seen three_lines =
          Ok (@diagram_of first_seen three_lines)) as H
      by (vm_compute; reflexivity).
  destruct (@segments_join_nodes first_seen three_lines _ 1 (py "C ~ A")
              (py "C ") (py " A") H eq_refl eq_refl)
    as (i & j & Hi & Hj & Hx & _ & Hx' & _).
  exists (@diagram_of first_seen three_lines), i, j.
  split; [exact H|]. split; [exact Hi|]. split; [exact Hj|].
  split; [exact Hx | exact Hx'].
Defined.

(** X5: the figure has two traces: the line trace with the edge lists, then the
    marker trace, whose i-th marker carries the i-th node name and sits at
    (2i, 2 * (i mod 2)); the marker lists are as long as the node list. *)
Theorem figure_markers {O : SetOrder} {Model : Type} (model_desc : list N)
    (model : Model) (fig : Figure) :
  create_path_diagram model_desc model = Ok fig →
  ∃ d edges markers,
    build_diagram model_desc = Ok d ∧
    fig.(fig_data) = [edges; markers] ∧
    edges.(scatter_x) = d.(edge_x) ∧ edges.(scatter_y) = d.(edge_y) ∧
    edges.(scatter_text) = None ∧
    markers.(scatter_text) = Some d.(nodes) ∧
    length markers.(scatter_x) = length d.(nodes) ∧
    length markers.(scatter_y) = length d.(nodes) ∧
    ∀ (i : nat) (n : list N),
      d.(nodes) !! i = Some n →
      markers.(scatter_x) !! i = Some (Some (2 * Z.of_nat i)) ∧
      markers.(scatter_y) !! i = Some (Some (2 * (Z.of_nat i mod 2))).
Proof.
  intros H. destruct (well_formed_dec model_desc) as [Hwf|Hwf].
  2: { by rewrite create_path_diagram_fail in H. }
  rewrite create_path_diagram_ok in H by done. injection H as <-.
  exists (diagram_of model_desc). eexists. eexists.
  split; [by apply build_diagram_ok|]. split; [reflexivity|].
  cbn [scatter_x scatter_y scatter_text]. rewrite !length_fmap.
  repeat (split; [done|]). intros i n Hi.
  rewrite !list_lookup_fmap, Hi. cbn [fmap option_fmap option_map].
  cbn [diagram_of pos nodes] in *.
  rewrite (layout_lookup 0 _ ∅ i n) by (done || apply list_set_NoDup).
  cbn [fmap option_fmap option_map fst snd].
  rewrite Z.add_0_l. by rewrite !(Z.mul_comm _ 2).
Qed.

Lemma figure_markers_witness :
  ∃ fig markers,
    @create_path_diagram first_seen unit three_lines () = Ok fig ∧
    fig.(fig_data) !! 1%nat = Some markers ∧
    markers.(scatter_text) = Some [py "B"; py "C"; py "A"] ∧
    length markers.(scatter_x) = 3%nat.
Proof.
  assert (∃ fig, @create_path_diagram first_seen unit three_lines () = Ok fig)
    as [fig H] by (eexists; vm_compute; reflexivity).
  destruct (@figure_markers first_seen unit _ _ _ H)
    as (d & edges & markers & Hd & Hf & _ & _ & _ & Ht & Hl & _).
  exists fig, markers. split; [exact H|].
  split; [by rewrite Hf|].
  assert (d = @diagram_of first_seen three_lines) as ->.
  { assert (@build_diagram first_seen three_lines =
            Ok (@diagram_of first_seen three_lines)) as H'
        by (vm_compute; reflexivity).
    rewrite H' in Hd. by injection Hd. }
  split; [exact Ht | exact Hl].
Defined.

(** X1: the function raises nothing but ValueError, and raises it exactly when
    some line of the text holds ['~'] at least twice. *)
Theorem raises_only_ValueError {O : SetOrder} {Model : Type}
    (model_desc : list N) (model : Model) :
  (∀ e, create_path_diagram model_desc model = Raise e → e = ValueError) ∧
  (create_path_diagram model_desc model = Raise ValueError ↔
   ∃ path, path ∈ split newline model_desc ∧ (2 ≤ count tilde path)%nat) ∧
  ((∃ fig, create_path_diagram model_desc model = Ok fig) ↔
   ∀ path, path ∈ split newline model_desc → (count tilde path ≤ 1)%nat).
Proof.
  destruct (well_formed_dec model_desc) as [Hwf|Hwf].
  - rewrite create_path_diagram_ok by done.
    pose proof Hwf as Hall. unfold well_formed in Hall.
    rewrite Forall_forall in Hall.
    split; [done|]. split; [|split; eauto].
    split; [done|]. intros (path & Hin & Hc). specialize (Hall _ Hin). lia.
  - rewrite create_path_diagram_fail by done.
    pose proof Hwf as Hex. apply not_well_formed, Exists_exists in Hex.
    split; [by intros e [= <-]|]. split; [by split|].
    split; [by intros [? ?]|]. intros Hall. destruct Hwf.
    by apply Forall_forall.
Qed.

(** ** Node names *)











(** X9: there are at most two nodes per relation line, and at least one node as
    soon as there is a relation line. *)
Theorem node_count_bounds {O : SetOrder} (model_desc : list N) (d : Diagram) :
  build_diagram model_desc = Ok d →
  (length d.(nodes) ≤ 2 * length (relation_lines model_desc))%nat ∧
  (d.(nodes) = [] ↔ relation_lines model_desc = []).
Proof.
  intros [_ ->]%build_diagram_inv. cbn [diagram_of nodes].
  rewrite term_list_relation_lines.
  set (terms := flat_map _ (relation_lines model_desc)).
  assert (length terms = (2 * length (relation_lines model_desc))%nat) as Hl.
  { unfold terms. induction (relation_lines model_desc) as [|p l IH]; [done|].
    cbn [flat_map app length]. rewrite IH. lia. }
  split.
  - rewrite <- Hl. apply submseteq_length, NoDup_submseteq.
    + apply list_set_NoDup.
    + intros n. apply list_set_elem.
  - split.
    + intros E. destruct (relation_lines model_desc) as [|p l] eqn:Er; [done|].
      assert ((sides p).1 ∈ list_set terms) as Hin.
      { apply list_set_elem. unfold terms. cbn [flat_map app]. by left. }
      rewrite E in Hin. by apply elem_of_nil in Hin.
    + intros E. unfold terms. rewrite E. apply list_set_nil.
Qed.

Lemma node_count_witness :
  ∃ d, @build_diagram first_seen three_lines = Ok d ∧
       (length d.(nodes) ≤ 2 * length (relation_lines three_lines))%nat.
Proof.
  exists (@diagram_of first_seen three_lines).
  assert (@build_diagram first_seen three_lines =
          Ok (@diagram_of first_seen three_lines)) as H
      by (vm_compute; reflexivity).
  split; [exact H|].
  exact (proj1 (@node_count_bounds first_seen _ _ H)).
Defined.

(** ** Spacing and line order *)

Lemma strip_spaces_l (w s : list N) :
  Forall (λ c, isspace c = true) w → strip (w ++ s) = strip s.
Proof.
  induction 1 as [|c w Hc Hw IH]; [done|].
  cbn [app]. by rewrite strip_cons_space.
Qed.

Lemma strip_spaces_r (s w : list N) :
  Forall (λ c, isspace c = true) w → strip (s ++ w) = strip s.
Proof.
  induction w as [|c w IH] using rev_ind; intros H; [by rewrite app_nil_r|].
  apply Forall_app in H as [Hw Hc]. apply (proj1 (Forall_singleton _ _)) in Hc.
  simpl in Hc. rewrite app_assoc. rewrite (strip_snoc_space c (s ++ w) Hc).
  by apply IH.
Qed.

Lemma spaces_no_tilde (w : list N) :
  Forall (λ c, isspace c = true) w → count tilde w = 0%nat.
Proof.
  induction 1 as [|c w Hc Hw IH]; [done|]. simpl.
  destruct (c =? tilde)%N eqn:E; [|done].
  apply N.eqb_eq in E. rewrite E in Hc. vm_compute in Hc. discriminate.
Qed.

Lemma build_diagram_edge_names {O : SetOrder} (t1 t2 : list N) :
  well_formed t1 → well_formed t2 → edge_names t1 = edge_names t2 →
  build_diagram t1 = build_diagram t2.
Proof.
  intros H1 H2 E. rewrite !build_diagram_ok by done. f_equal.
  assert (∀ t, term_list (split newline t) =
               flat_map (λ e : list N * list N, [e.1; e.2]) (edge_names t))
    as Hterms.
  { intros t. rewrite term_list_relation_lines. unfold edge_names.
    induction (relation_lines t) as [|p l IH]; [done|].
    rewrite fmap_cons. cbn [flat_map]. by rewrite IH. }
  unfold diagram_of. by rewrite !Hterms, E.
Qed.

(** X10: white space before and after the two names of a line, on either side of
    the ['~'], changes neither the names of the line nor, when the line is
    the whole text, anything in the result. *)
Theorem spacing_is_ignored {O : SetOrder} (A B w1 w2 w3 w4 : list N) :
  Forall (λ c, isspace c = true) w1 → Forall (λ c, isspace c = true) w2 →
  Forall (λ c, isspace c = true) w3 → Forall (λ c, isspace c = true) w4 →
  count tilde A = 0%nat → count tilde B = 0%nat →
  let spaced := (w1 ++ A ++ w2) ++ tilde :: (w3 ++ B ++ w4) in
  let plain := A ++ tilde :: B in
  sides spaced = (strip A, strip B) ∧
  sides plain = (strip A, strip B) ∧
  (count newline spaced = 0%nat → count newline plain = 0%nat →
   build_diagram spaced = build_diagram plain).
Proof.
  intros H1 H2 H3 H4 HA HB spaced plain.
  assert (count tilde (w1 ++ A ++ w2) = 0%nat) as HL.
  { rewrite !count_app, HA, !spaces_no_tilde by done. done. }
  assert (count tilde (w3 ++ B ++ w4) = 0%nat) as HR.
  { rewrite !count_app, HB, !spaces_no_tilde by done. done. }
  assert (sides spaced = (strip A, strip B)) as Hs.
  { unfold spaced. rewrite sides_relation by done.
    rewrite strip_spaces_l, strip_spaces_r by done.
    by rewrite strip_spaces_l, strip_spaces_r by done. }
  assert (sides plain = (strip A, strip B)) as Hp
      by (by apply sides_relation).
  split; [done|]. split; [done|]. intros Hn1 Hn2.
  assert (∀ t, count newline t = 0%nat → count tilde t = 1%nat →
               well_formed t ∧ edge_names t = [sides t]) as Hone.
  { intros t Hnl Hc. unfold well_formed, edge_names, relation_lines.
    rewrite (split_no_sep newline t Hnl), filter_contains_cons.
    assert (contains tilde t = true) as -> by (apply contains_count; lia).
    split; [|done]. constructor; [lia | constructor]. }
  destruct (Hone spaced Hn1) as [W1 E1]; [by apply count_relation|].
  destruct (Hone plain Hn2) as [W2 E2]; [by apply count_relation|].
  apply build_diagram_edge_names; [done..|]. by rewrite E1, E2, Hs, Hp.
Qed.

Lemma spacing_witness :
  sides (py "   A  ~   B ") = (py "A", py "B") ∧
  @build_diagram first_seen (py "   A  ~   B ") =
  @build_diagram first_seen (py "A~B").
Proof.
  destruct (@spacing_is_ignored first_seen (py "A") (py "B")
              (py "   ") (py "  ") (py "   ") (py " "))
    as (Hs & _ & Hb); try by_evaluation.
  split; [exact Hs | exact (Hb eq_refl eq_refl)].
Defined.



(** ** Comment lines *)



(** * Dependence on the iteration order of the set *)




